(** * A shallow embedding of [src/urlscanClient.ts]

    The client of the urlscan.io API: a constructor, three asynchronous
    operations ([scan], [getScan], [search]) and the private [handleError].

    Conventions of the embedding.
    - A JavaScript string is the Rocq [string] of its UTF-8 bytes.
    - A JavaScript number is modelled where it is an integer ([Z]) that
      prints in plain decimal notation.
    - An object is the list of its own enumerable string-keyed properties in
      enumeration order (the order of [Object.entries] and [JSON.stringify]).
      Property names are ordinary names as in [ScanPayload] and
      [SearchOptions], not array indices, so that this order is the order of
      creation.
    - The runtime's [fetch] and [Response.json] reject with Error objects
      (TypeError, SyntaxError), as the Fetch standard has them.
    - An [async] method is a computation in a state-and-exception monad: a
      normal completion is the fulfilment of the returned promise, an abrupt
      one its rejection.  The state records the calls of [fetch] and of
      [console.error] and holds the client object. *)

From Stdlib Require Import String Ascii List ZArith NArith Bool.
From Stdlib Require Import DecimalString.
Import ListNotations.
Local Open Scope list_scope.
Local Open Scope string_scope.
Set Warnings "-register-all".

(** ** JavaScript values *)

Module Js.

Inductive JsVal : Type :=
| JUndefined
| JNull
| JBool (b : bool)
| JNum (n : Z)
| JStr (s : string)
| JArr (elems : list JsVal)
| JObj (props : list (string * JsVal))
| JError (name message : string).   (* an instance of Error or of a subclass *)

Definition Obj : Type := list (string * JsVal).

(** [new Error(message)] *)
Definition new_Error (message : string) : JsVal := JError "Error" message.

(** ToBoolean *)
Definition truthy (v : JsVal) : bool :=
  match v with
  | JUndefined | JNull => false
  | JBool b => b
  | JNum n => negb (n =? 0)%Z
  | JStr s => negb (s =? "")
  | JArr _ | JObj _ | JError _ _ => true
  end.

(** [v !== undefined] *)
Definition is_defined (v : JsVal) : bool :=
  match v with JUndefined => false | _ => true end.

(** Number::toString on an integer *)
Definition string_of_Z (n : Z) : string := NilZero.string_of_int (Z.to_int n).
Definition string_of_N (n : N) : string := string_of_Z (Z.of_N n).

Fixpoint join (sep : string) (l : list string) : string :=
  match l with
  | [] => ""
  | [x] => x
  | x :: r => x ++ sep ++ join sep r
  end.

(** ToString; an array prints as [join(",")], where [undefined] and [null]
    elements print as the empty string. *)
Fixpoint ToString (v : JsVal) : string :=
  match v with
  | JUndefined => "undefined"
  | JNull => "null"
  | JBool true => "true"
  | JBool false => "false"
  | JNum n => string_of_Z n
  | JStr s => s
  | JArr l =>
      join "," (map (fun x => match x with
                              | JUndefined | JNull => ""
                              | _ => ToString x
                              end) l)
  | JObj _ => "[object Object]"
  | JError name message =>
      if name =? "" then message
      else if message =? "" then name
      else name ++ ": " ++ message
  end.

(** Own property lookup in an object's property list. *)
Fixpoint lookup (k : string) (ps : Obj) : option JsVal :=
  match ps with
  | [] => None
  | (k', v) :: r => if k =? k' then Some v else lookup k r
  end.

(** [o[k] = v]: an existing property keeps its place, a new one goes last. *)
Fixpoint set_prop (ps : Obj) (k : string) (v : JsVal) : Obj :=
  match ps with
  | [] => [(k, v)]
  | (k', v') :: r => if k =? k' then (k', v) :: r else (k', v') :: set_prop r k v
  end.

(** [{ ...target, ...source }] onto an object under construction: each own
    property of the source is defined on the target in turn.  Spreading
    [undefined] adds nothing. *)
Definition spread (target : Obj) (source : option Obj) : Obj :=
  match source with
  | None => target
  | Some ps => fold_left (fun acc kv => set_prop acc (fst kv) (snd kv)) ps target
  end.

End Js.
Export Js.

(** ** JSON.stringify *)

Module JSON.

Definition hex_digit_lower (n : N) : ascii :=
  match n with
  | 0 => "0" | 1 => "1" | 2 => "2" | 3 => "3" | 4 => "4" | 5 => "5" | 6 => "6"
  | 7 => "7" | 8 => "8" | 9 => "9" | 10 => "a" | 11 => "b" | 12 => "c"
  | 13 => "d" | 14 => "e" | _ => "f"
  end%N%char.

Definition dquote : string := String (ascii_of_N 34) EmptyString.

(** One character of QuoteJSONString. *)
Definition quote_char (c : ascii) : string :=
  let n := N_of_ascii c in
  if (n =? 8)%N then "\b"
  else if (n =? 9)%N then "\t"
  else if (n =? 10)%N then "\n"
  else if (n =? 12)%N then "\f"
  else if (n =? 13)%N then "\r"
  else if (n =? 34)%N then String "\" dquote
  else if (n =? 92)%N then "\\"
  else if (n <? 32)%N then
    "\u00" ++ String (hex_digit_lower (n / 16)) (String (hex_digit_lower (n mod 16)) "")
  else String c "".

Fixpoint quote_body (s : string) : string :=
  match s with
  | EmptyString => ""
  | String c r => quote_char c ++ quote_body r
  end.

Definition quote (s : string) : string := dquote ++ quote_body s ++ dquote.

(** SerializeJSONProperty: [None] is the result [undefined]. *)
Fixpoint serialize (v : JsVal) : option string :=
  match v with
  | JUndefined => None
  | JNull => Some "null"
  | JBool true => Some "true"
  | JBool false => Some "false"
  | JNum n => Some (string_of_Z n)
  | JStr s => Some (quote s)
  | JArr l =>
      Some ("[" ++ join "," (map (fun x => match serialize x with
                                           | Some s => s
                                           | None => "null"
                                           end) l) ++ "]")
  | JObj ps =>
      Some ("{" ++ join "," (flat_map (fun kv => match kv with
                                                 | (k, x) =>
                                                     match serialize x with
                                                     | Some s => [quote k ++ ":" ++ s]
                                                     | None => []
                                                     end
                                                 end) ps) ++ "}")
  | JError _ _ => Some "{}"
  end.

(** [JSON.stringify(v)] for a [v] that is an object: always a string. *)
Definition stringify (ps : Obj) : string :=
  match serialize (JObj ps) with Some s => s | None => "undefined" end.

End JSON.

(** ** URLSearchParams *)

Module URLSearchParams.

(** The list of name-value pairs of a [URLSearchParams] object. *)
Definition t : Type := list (string * string).

(** [new URLSearchParams(record)] *)
Definition new (init : list (string * string)) : t := init.

(** [params.append(name, value)]; the value is converted with ToString. *)
Definition append (params : t) (name : string) (value : JsVal) : t :=
  (params ++ [(name, ToString value)])%list.

Definition hex_digit_upper (n : N) : ascii :=
  match n with
  | 0 => "0" | 1 => "1" | 2 => "2" | 3 => "3" | 4 => "4" | 5 => "5" | 6 => "6"
  | 7 => "7" | 8 => "8" | 9 => "9" | 10 => "A" | 11 => "B" | 12 => "C"
  | 13 => "D" | 14 => "E" | _ => "F"
  end%N%char.

(** Bytes that the application/x-www-form-urlencoded serializer leaves as
    they are: ASCII letters and digits and [*], [-], [.], [_]. *)
Definition unreserved (n : N) : bool :=
  ((48 <=? n) && (n <=? 57) || (65 <=? n) && (n <=? 90) || (97 <=? n) && (n <=? 122)
   || (n =? 42) || (n =? 45) || (n =? 46) || (n =? 95))%N.

Definition encode_byte (c : ascii) : string :=
  let n := N_of_ascii c in
  if (n =? 32)%N then "+"
  else if unreserved n then String c ""
  else String "%" (String (hex_digit_upper (n / 16)) (String (hex_digit_upper (n mod 16)) "")).

Fixpoint encode (s : string) : string :=
  match s with
  | EmptyString => ""
  | String c r => encode_byte c ++ encode r
  end.

(** [params.toString()] *)
Definition toString (params : t) : string :=
  join "&" (map (fun nv => encode (fst nv) ++ "=" ++ encode (snd nv)) params).

End URLSearchParams.

(** ** The transport: [fetch] and [Response] *)

(** What one call [fetch(url, init)] is given. *)
Record Request : Type := {
  req_url : string;
  req_method : string;
  req_headers : list (string * string);
  req_body : option string
}.

(** [await response.json()]: the parsed body, or a rejection with an Error
    (a SyntaxError on a malformed body). *)
Inductive JsonOutcome : Type :=
| JsonParsed (v : JsVal)
| JsonFails (name message : string).

Record Response : Type := {
  ok : bool;
  status : N;
  json : JsonOutcome
}.

(** [await fetch(...)]: a response, or a rejection with an Error (a
    TypeError on a network failure). *)
Inductive FetchOutcome : Type :=
| Responds (r : Response)
| NetworkFailure (name message : string).

(** ** The client object and the observable state *)

Record UrlscanClient : Type := {
  apiKey : string;
  baseURL : string
}.

Record World : Type := {
  this : UrlscanClient;                 (* the client object's fields *)
  fetch_calls : list Request;           (* the calls of fetch, oldest first *)
  console_error : list (list JsVal)     (* the argument lists of console.error *)
}.

Definition initial (c : UrlscanClient) : World :=
  {| this := c; fetch_calls := []; console_error := [] |}.

(** ** Completions and the monad of the methods *)

Inductive Completion (A : Type) : Type :=
| Normal (a : A)
| Throw (e : JsVal).
Arguments Normal {A} a.
Arguments Throw {A} e.

Definition M (A : Type) : Type := World -> Completion A * World.

Definition ret {A} (a : A) : M A := fun w => (Normal a, w).

Definition throw {A} (e : JsVal) : M A := fun w => (Throw e, w).

Definition bind {A B} (m : M A) (k : A -> M B) : M B :=
  fun w => match m w with
           | (Normal a, w') => k a w'
           | (Throw e, w') => (Throw e, w')
           end.

(** [try { body } catch (error) { handler }] *)
Definition try_catch {A} (body : M A) (handler : JsVal -> M A) : M A :=
  fun w => match body w with
           | (Normal a, w') => (Normal a, w')
           | (Throw e, w') => handler e w'
           end.

Definition lift {A} (c : Completion A) : M A := fun w => (c, w).

Definition get_this : M UrlscanClient := fun w => (Normal (this w), w).

Notation "x <- m ;; k" := (bind m (fun x => k))
  (at level 61, m at next level, right associativity).
Notation "m ;;; k" := (bind m (fun _ => k))
  (at level 61, right associativity).

Definition record_fetch (req : Request) (w : World) : World :=
  {| this := this w;
     fetch_calls := (fetch_calls w ++ [req])%list;
     console_error := console_error w |}.

Definition record_console_error (args : list JsVal) (w : World) : World :=
  {| this := this w;
     fetch_calls := fetch_calls w;
     console_error := (console_error w ++ [args])%list |}.

(** [console.error(...args)] *)
Definition console_error_call (args : list JsVal) : M unit :=
  fun w => (Normal tt, record_console_error args w).

(** ** The client: [class UrlscanClient] *)

(** [error.message]: reading a property of [undefined] or [null] throws a
    TypeError (the text is the engine's); a primitive or an array has no
    such property. *)
Definition get_message (error : JsVal) : Completion JsVal :=
  match error with
  | JUndefined =>
      Throw (JError "TypeError" "Cannot read properties of undefined (reading 'message')")
  | JNull =>
      Throw (JError "TypeError" "Cannot read properties of null (reading 'message')")
  | JObj ps => Normal (match lookup "message" ps with Some v => v | None => JUndefined end)
  | JError _ message => Normal (JStr message)
  | JBool _ | JNum _ | JStr _ | JArr _ => Normal JUndefined
  end.

(** [private handleError(error: any)] *)
Definition handleError (error : JsVal) : M unit :=
  message <- lift (get_message error) ;;
  console_error_call [JStr "Error:"; if truthy message then message else error].

(** [constructor(apiKey: string)]; [None] is an absent argument, that is
    [undefined], for which [!apiKey] holds. *)
Definition constructor (apiKey : option string) : Completion UrlscanClient :=
  match apiKey with
  | None => Throw (new_Error "API key is required.")
  | Some k =>
      if negb (truthy (JStr k)) || (k =? "") then
        Throw (new_Error "API key is required.")
      else
        Normal {| apiKey := k; baseURL := "https://urlscan.io/api/v1/" |}
  end.

Section Methods.

(** The runtime's [fetch]: what it answers to each request. *)
Variable transport : Request -> FetchOutcome.

(** [await fetch(url, { method, headers, body })] *)
Definition fetch (url method : string) (headers : list (string * string))
    (body : option string) : M Response :=
  fun w =>
    let req := {| req_url := url; req_method := method;
                  req_headers := headers; req_body := body |} in
    match transport req with
    | Responds r => (Normal r, record_fetch req w)
    | NetworkFailure name message => (Throw (JError name message), record_fetch req w)
    end.

(** [await response.json()] *)
Definition response_json (response : Response) : M JsVal :=
  match json response with
  | JsonParsed v => ret v
  | JsonFails name message => throw (JError name message)
  end.

(** [async scan(url, options?)] *)
Definition scan (url : string) (options : option Obj) : M JsVal :=
  try_catch
    (let payload := spread [("url", JStr url)] options in
     self <- get_this ;;
     response <- fetch (baseURL self ++ "scan") "POST"
                   [("API-Key", apiKey self); ("Content-Type", "application/json")]
                   (Some (JSON.stringify payload)) ;;
     if negb (ok response) then
       throw (new_Error ("HTTP error! status: " ++ string_of_N (status response)))
     else
       response_json response)
    (fun error => handleError error ;;; ret JUndefined).

(** [async getScan(id)] *)
Definition getScan (id : string) : M JsVal :=
  try_catch
    (self <- get_this ;;
     response <- fetch (baseURL self ++ "result/" ++ id) "GET"
                   [("API-Key", apiKey self)] None ;;
     if negb (ok response) then
       throw (new_Error ("HTTP error! status: " ++ string_of_N (status response)))
     else
       response_json response)
    (fun error => handleError error ;;; ret JUndefined).

(** The [forEach] over [Object.entries(options)] in [search]. *)
Definition append_defined (queryParams : URLSearchParams.t) (options : Obj)
    : URLSearchParams.t :=
  fold_left (fun qp kv =>
               if is_defined (snd kv) then URLSearchParams.append qp (fst kv) (snd kv)
               else qp)
            options queryParams.

(** [async search(term, options?)] *)
Definition search (term : string) (options : option Obj) : M JsVal :=
  if negb (truthy (JStr term)) then
    throw (new_Error "Search term is required.")
  else
    try_catch
      (let queryParams := URLSearchParams.new [("q", term)] in
       let queryParams :=
         match options with
         | Some o => append_defined queryParams o
         | None => queryParams
         end in
       self <- get_this ;;
       response <- fetch (baseURL self ++ "search?" ++ URLSearchParams.toString queryParams)
                     "GET" [("API-Key", apiKey self)] None ;;
       if negb (ok response) then
         throw (new_Error ("HTTP error! status: " ++ string_of_N (status response)))
       else
         response_json response)
      (fun error => handleError error ;;; ret JUndefined).

(** A call of one of the three public methods. *)
Inductive Operation : Type :=
| OpScan (url : string) (options : option Obj)
| OpGetScan (id : string)
| OpSearch (term : string) (options : option Obj).

Definition call (op : Operation) : M JsVal :=
  match op with
  | OpScan url options => scan url options
  | OpGetScan id => getScan id
  | OpSearch term options => search term options
  end.

End Methods.

(** ** Vocabulary of the statements *)

(** [search] with an empty term is refused before anything else happens;
    every other call goes to the transport. *)
Definition accepted (op : Operation) : bool :=
  match op with
  | OpSearch term _ => negb (term =? "")
  | _ => true
  end.

Definition entries (options : option Obj) : Obj :=
  match options with Some o => o | None => [] end.

(** The pairs of the query of [search]: [q] first, then the defined options
    in their order, each value as a string. *)
Definition query_pairs (term : string) (options : option Obj) : URLSearchParams.t :=
  ("q", term) ::
  map (fun kv => (fst kv, ToString (snd kv)))
      (filter (fun kv => is_defined (snd kv)) (entries options)).

(** The request that a call hands to [fetch]. *)
Definition request_of (c : UrlscanClient) (op : Operation) : Request :=
  match op with
  | OpScan url options =>
      {| req_url := baseURL c ++ "scan";
         req_method := "POST";
         req_headers := [("API-Key", apiKey c); ("Content-Type", "application/json")];
         req_body := Some (JSON.stringify (spread [("url", JStr url)] options)) |}
  | OpGetScan id =>
      {| req_url := baseURL c ++ "result/" ++ id;
         req_method := "GET";
         req_headers := [("API-Key", apiKey c)];
         req_body := None |}
  | OpSearch term options =>
      {| req_url := baseURL c ++ "search?" ++ URLSearchParams.toString (query_pairs term options);
         req_method := "GET";
         req_headers := [("API-Key", apiKey c)];
         req_body := None |}
  end.

(** The value of a header in the headers of a request. *)
Fixpoint header (name : string) (headers : list (string * string)) : option string :=
  match headers with
  | [] => None
  | (n, v) :: r => if name =? n then Some v else header name r
  end.

(** A transport outcome on which a method takes its failure path: fetch
    rejects, the response is not ok, or the body does not parse. *)
Definition transport_failed (o : FetchOutcome) : Prop :=
  match o with
  | NetworkFailure _ _ => True
  | Responds r => ok r = false \/ exists name message, json r = JsonFails name message
  end.

(** The query string as the specification words it: [q=<term>], then
    [&key=value] for each defined pair, nothing encoded. *)
Definition literal_query (term : string) (options : option Obj) : string :=
  "q=" ++ term ++
  String.concat ""
    (map (fun kv => "&" ++ fst kv ++ "=" ++ ToString (snd kv))
         (filter (fun kv => is_defined (snd kv)) (entries options))).


Fixpoint all_unreserved (s : string) : bool :=
  match s with
  | EmptyString => true
  | String c r => URLSearchParams.unreserved (N_of_ascii c) && all_unreserved r
  end.

(** The failure path of the three methods: the handler, then [undefined]. *)
Definition swallow (error : JsVal) : M JsVal := handleError error ;;; ret JUndefined.

Definition http_error (response : Response) : JsVal :=
  new_Error ("HTTP error! status: " ++ string_of_N (status response)).

(** The test transports and client of the examples. *)
Definition test_client : UrlscanClient :=
  {| apiKey := "test-api-key"; baseURL := "https://urlscan.io/api/v1/" |}.

Definition responding (r : Response) : Request -> FetchOutcome := fun _ => Responds r.

Definition ok_response (v : JsVal) : Response :=
  {| ok := true; status := 200; json := JsonParsed v |}.

Definition error_response (code : N) : Response :=
  {| ok := false; status := code; json := JsonFails "SyntaxError" "Unexpected end of JSON input" |}.

(** *** Vocabulary of the further properties *)

(** Occurrences of a character in a string. *)
Fixpoint count_char (c : ascii) (s : string) : nat :=
  match s with
  | EmptyString => 0
  | String c' r => (if Ascii.eqb c c' then 1 else 0) + count_char c r
  end.

(** The world [w] followed by what the world [d] records. *)
Definition extend (w d : World) : World :=
  {| this := this w;
     fetch_calls := (fetch_calls w ++ fetch_calls d)%list;
     console_error := (console_error w ++ console_error d)%list |}.

(** A transport on which every call of fetch rejects. *)
Definition failing (name message : string) : Request -> FetchOutcome :=
  fun _ => NetworkFailure name message.



(** ** Auxiliary facts *)

Lemma append_defined_spec (options : Obj) (qp : URLSearchParams.t) :
  append_defined qp options =
  (qp ++ map (fun kv => (fst kv, ToString (snd kv)))
            (filter (fun kv => is_defined (snd kv)) options))%list.
Proof.
  revert qp. induction options as [| [k v] r IH]; intros qp; simpl.
  - now rewrite app_nil_r.
  - unfold append_defined in *. simpl.
    destruct (is_defined v); simpl.
    + rewrite IH. unfold URLSearchParams.append. now rewrite <- app_assoc.
    + apply IH.
Qed.

Lemma query_pairs_spec (term : string) (options : option Obj) :
  match options with
  | Some o => append_defined (URLSearchParams.new [("q", term)]) o
  | None => URLSearchParams.new [("q", term)]
  end = query_pairs term options.
Proof.
  destruct options as [o |]; [| reflexivity].
  now rewrite append_defined_spec.
Qed.

(** What [handleError] does with an Error object. *)
Lemma handleError_Error (name message : string) (w : World) :
  handleError (JError name message) w =
  (Normal tt,
   record_console_error
     [JStr "Error:"; if message =? "" then JError name message else JStr message] w).
Proof.
  unfold handleError, bind, lift, console_error_call. simpl.
  now destruct (message =? "").
Qed.

(** Every accepted call is one call of [fetch] followed by one of four
    continuations. *)
Lemma call_run (transport : Request -> FetchOutcome) (op : Operation) (w : World) :
  accepted op = true ->
  call transport op w =
  let req := request_of (this w) op in
  let w1 := record_fetch req w in
  match transport req with
  | Responds r =>
      if ok r then
        match json r with
        | JsonParsed v => (Normal v, w1)
        | JsonFails name message => swallow (JError name message) w1
        end
      else swallow (http_error r) w1
  | NetworkFailure name message => swallow (JError name message) w1
  end.
Proof.
  intros Hacc. destruct op as [url options | id | term options]; simpl.
  - unfold scan, try_catch, bind, get_this, fetch. simpl.
    destruct (transport _) as [r | name message]; [| reflexivity].
    unfold response_json, throw, ret. destruct (ok r); simpl; [| reflexivity].
    now destruct (json r).
  - unfold getScan, try_catch, bind, get_this, fetch. simpl.
    destruct (transport _) as [r | name message]; [| reflexivity].
    unfold response_json, throw, ret. destruct (ok r); simpl; [| reflexivity].
    now destruct (json r).
  - unfold search. simpl in Hacc. simpl. rewrite Hacc. simpl.
    unfold try_catch, bind, get_this, fetch. simpl.
    rewrite query_pairs_spec.
    destruct (transport _) as [r | name message]; [| reflexivity].
    unfold response_json, throw, ret. destruct (ok r); simpl; [| reflexivity].
    now destruct (json r).
Qed.

Lemma swallow_Error (name message : string) (w : World) :
  swallow (JError name message) w =
  (Normal JUndefined,
   record_console_error
     [JStr "Error:"; if message =? "" then JError name message else JStr message] w).
Proof. unfold swallow, bind. now rewrite handleError_Error. Qed.

Lemma swallow_http_error (r : Response) (w : World) :
  swallow (http_error r) w =
  (Normal JUndefined,
   record_console_error
     [JStr "Error:"; JStr ("HTTP error! status: " ++ string_of_N (status r))] w).
Proof. unfold http_error, new_Error. rewrite swallow_Error. reflexivity. Qed.

(** A refused call ([search] with an empty term) leaves the world alone. *)
Lemma call_refused (transport : Request -> FetchOutcome) (op : Operation) (w : World) :
  accepted op = false ->
  call transport op w = (Throw (new_Error "Search term is required."), w).
Proof.
  destruct op as [url options | id | term options]; simpl; try discriminate.
  intros H. unfold search. simpl. now rewrite H.
Qed.

Lemma constructor_Some (k : string) (c : UrlscanClient) :
  constructor (Some k) = Normal c ->
  k <> "" /\ c = {| apiKey := k; baseURL := "https://urlscan.io/api/v1/" |}.
Proof.
  unfold constructor. simpl. destruct (k =? "") eqn:E; simpl; [discriminate |].
  intros H. injection H as <-. split; [| reflexivity].
  intros ->. discriminate.
Qed.

Lemma encode_unreserved (s : string) :
  all_unreserved s = true -> URLSearchParams.encode s = s.
Proof.
  induction s as [| c r IH]; simpl; [reflexivity |].
  intros H. apply andb_prop in H as [Hc Hr].
  unfold URLSearchParams.encode_byte. rewrite Hc.
  replace (N_of_ascii c =? 32)%N with false.
  - simpl. now rewrite IH.
  - symmetry. apply N.eqb_neq. intros E. rewrite E in Hc. discriminate.
Qed.

Lemma toString_query_pairs (term : string) (options : option Obj) :
  URLSearchParams.toString (query_pairs term options) =
  join "&" (("q=" ++ URLSearchParams.encode term) ::
            map (fun kv => URLSearchParams.encode (fst kv) ++ "=" ++
                           URLSearchParams.encode (ToString (snd kv)))
                (filter (fun kv => is_defined (snd kv)) (entries options))).
Proof.
  unfold URLSearchParams.toString, query_pairs.
  cbn [map fst snd]. rewrite map_map. reflexivity.
Qed.

(** The handler itself throws on [undefined] and [null], whose property
    read fails; the runtime's fetch and json never reject with these. *)
Lemma handleError_nullish (w : World) :
  (exists e, handleError JUndefined w = (Throw e, w)) /\
  (exists e, handleError JNull w = (Throw e, w)).
Proof. split; eexists; reflexivity. Qed.

(** *** Object spread onto [{ url }] *)




(** ** The claims *)

(** C1.  For each of the three public operations (search with a non-empty
    term), whenever the transport step fails -- fetch rejects, the response
    has [ok = false], or the body does not parse -- the call runs the shared
    [handleError] on the caught error, writes one line to [console.error]
    and its promise is fulfilled with [undefined]; it is not rejected. *)
Theorem failures_are_swallowed (transport : Request -> FetchOutcome)
    (op : Operation) (w : World) :
  accepted op = true ->
  transport_failed (transport (request_of (this w) op)) ->
  exists error arg,
    call transport op w =
      (handleError error ;;; ret JUndefined) (record_fetch (request_of (this w) op) w) /\
    call transport op w =
      (Normal JUndefined,
       record_console_error [JStr "Error:"; arg]
         (record_fetch (request_of (this w) op) w)).
Proof.
  intros Hacc Hfail. rewrite (call_run transport op w Hacc). cbv zeta.
  destruct (transport (request_of (this w) op)) as [r | name message]; simpl in Hfail.
  - destruct (ok r) eqn:Hok.
    + destruct Hfail as [H | (name & message & Hj)]; [discriminate |].
      rewrite Hj. eexists; eexists; split; [reflexivity | apply swallow_Error].
    + eexists; eexists; split; [reflexivity | apply swallow_http_error].
  - eexists; eexists; split; [reflexivity | apply swallow_Error].
Qed.

Lemma failures_are_swallowed_witness :
  exists error arg,
    call (responding (error_response 500)) (OpScan "https://example.com" None)
         (initial test_client) =
      (handleError error ;;; ret JUndefined)
        (record_fetch (request_of test_client (OpScan "https://example.com" None))
                      (initial test_client)) /\
    call (responding (error_response 500)) (OpScan "https://example.com" None)
         (initial test_client) =
      (Normal JUndefined,
       record_console_error [JStr "Error:"; arg]
         (record_fetch (request_of test_client (OpScan "https://example.com" None))
                       (initial test_client))).
Proof.
  apply (failures_are_swallowed (responding (error_response 500))
           (OpScan "https://example.com" None) (initial test_client)).
  - reflexivity.
  - simpl. left. reflexivity.
Defined.

(** C2.  Constructing the client with an absent or empty API key fails with
    the message "API key is required."; with any non-empty key it succeeds
    and stores that key and the base URL "https://urlscan.io/api/v1/". *)
Theorem constructor_requires_key :
  constructor None = Throw (new_Error "API key is required.") /\
  constructor (Some "") = Throw (new_Error "API key is required.") /\
  forall k : string,
    k <> "" ->
    constructor (Some k) =
      Normal {| apiKey := k; baseURL := "https://urlscan.io/api/v1/" |}.
Proof.
  repeat split.
  intros k Hk. unfold constructor. simpl.
  destruct (String.eqb_spec k "") as [E | _]; [contradiction | reflexivity].
Qed.

Lemma constructor_requires_key_witness :
  constructor (Some "test-api-key") = Normal test_client.
Proof.
  apply (proj2 (proj2 constructor_requires_key) "test-api-key").
  discriminate.
Defined.




(** C5.  When the response to an operation's request is not ok and has
    status [S], [console.error] is called once, with the tag "Error:" and
    the message "HTTP error! status: S"; the promise is fulfilled with
    [undefined], so that this line is the only sign of the failure. *)
Theorem non_ok_response_is_logged (transport : Request -> FetchOutcome)
    (op : Operation) (w : World) (r : Response) :
  accepted op = true ->
  transport (request_of (this w) op) = Responds r ->
  ok r = false ->
  call transport op w =
    (Normal JUndefined,
     record_console_error
       [JStr "Error:"; JStr ("HTTP error! status: " ++ string_of_N (status r))]
       (record_fetch (request_of (this w) op) w)).
Proof.
  intros Hacc Ht Hok. rewrite (call_run transport op w Hacc). cbv zeta.
  rewrite Ht, Hok. apply swallow_http_error.
Qed.

Lemma non_ok_response_is_logged_witness :
  call (responding (error_response 500)) (OpScan "https://example.com" None)
       (initial test_client) =
    (Normal JUndefined,
     {| this := test_client;
        fetch_calls := [request_of test_client (OpScan "https://example.com" None)];
        console_error := [[JStr "Error:"; JStr "HTTP error! status: 500"]] |}).
Proof.
  apply (non_ok_response_is_logged (responding (error_response 500))
           (OpScan "https://example.com" None) (initial test_client)
           (error_response 500)); reflexivity.
Defined.

(** C6.  [getScan] makes exactly one call of fetch: a GET to
    "https://urlscan.io/api/v1/result/" followed by the id, with the header
    API-Key and no body.  On an ok response whose body parses it returns the
    parsed value and logs nothing; on every other outcome it logs one line
    tagged "Error:" and returns [undefined], the line being the HTTP status
    message when the response is not ok. *)
Theorem getScan_contract (transport : Request -> FetchOutcome)
    (key : string) (c : UrlscanClient) (id : string) :
  constructor (Some key) = Normal c ->
  request_of c (OpGetScan id) =
    {| req_url := "https://urlscan.io/api/v1/result/" ++ id;
       req_method := "GET";
       req_headers := [("API-Key", key)];
       req_body := None |} /\
  exists (result : JsVal) (log : list (list JsVal)),
    getScan transport id (initial c) =
      (Normal result,
       {| this := c; fetch_calls := [request_of c (OpGetScan id)]; console_error := log |}) /\
    match transport (request_of c (OpGetScan id)) with
    | Responds r =>
        if ok r then
          match json r with
          | JsonParsed v => result = v /\ log = []
          | JsonFails _ _ => result = JUndefined /\ exists arg, log = [[JStr "Error:"; arg]]
          end
        else
          result = JUndefined /\
          log = [[JStr "Error:"; JStr ("HTTP error! status: " ++ string_of_N (status r))]]
    | NetworkFailure _ _ => result = JUndefined /\ exists arg, log = [[JStr "Error:"; arg]]
    end.
Proof.
  intros Hc. destruct (constructor_Some _ _ Hc) as [_ Ec].
  split; [rewrite Ec; reflexivity |].
  pose proof (call_run transport (OpGetScan id) (initial c) eq_refl) as Hrun.
  cbv zeta in Hrun. cbn [call] in Hrun. cbn [this initial] in Hrun.
  rewrite Hrun. clear Hrun.
  destruct (transport _) as [r | name message].
  - destruct (ok r); [destruct (json r) as [v | name message] |];
      rewrite ?swallow_Error, ?swallow_http_error;
      eexists; eexists; (split; [reflexivity |]); split; try reflexivity;
      eexists; reflexivity.
  - rewrite swallow_Error.
    eexists; eexists; (split; [reflexivity |]); split; [reflexivity |].
    eexists; reflexivity.
Qed.

Lemma getScan_contract_witness :
  exists (result : JsVal) (log : list (list JsVal)),
    getScan (responding (error_response 404)) "scan-id" (initial test_client) =
      (Normal result,
       {| this := test_client;
          fetch_calls := [{| req_url := "https://urlscan.io/api/v1/result/scan-id";
                             req_method := "GET";
                             req_headers := [("API-Key", "test-api-key")];
                             req_body := None |}];
          console_error := log |}) /\
    result = JUndefined /\
    log = [[JStr "Error:"; JStr "HTTP error! status: 404"]].
Proof.
  exact (proj2 (getScan_contract (responding (error_response 404))
                  "test-api-key" test_client "scan-id" eq_refl)).
Defined.

(** C7, as the specification words it, does not hold: the query is not the
    literal text [q=<term>&key=value...].  The term of the repository's own
    live test, "domain:urlscan.io", is sent as [q=domain%3Aurlscan.io]. *)
Lemma search_query_is_not_literal :
  let issued :=
    fetch_calls (snd (search (responding (ok_response JNull)) "domain:urlscan.io" None
                        (initial test_client))) in
  issued =
    [{| req_url := "https://urlscan.io/api/v1/search?q=domain%3Aurlscan.io";
        req_method := "GET";
        req_headers := [("API-Key", "test-api-key")];
        req_body := None |}] /\
  issued <>
    [{| req_url := baseURL test_client ++ "search?" ++
                   literal_query "domain:urlscan.io" None;
        req_method := "GET";
        req_headers := [("API-Key", apiKey test_client)];
        req_body := None |}].
Proof.
  split; [reflexivity |].
  vm_compute. discriminate.
Qed.

(** C7, amended.  For a non-empty term [search] makes exactly one call of
    fetch: a GET with the header API-Key and no body to
    "https://urlscan.io/api/v1/search?" followed by the
    application/x-www-form-urlencoded text of the pairs [(q, term)] and then
    each pair of the options whose value is not [undefined], in their order
    and with the value converted to a string: [q=enc(term)], then
    [&enc(key)=enc(value)] for each.  The encoding leaves a string of ASCII
    letters, digits, [*], [-], [.] and [_] as it is. *)
Theorem search_query_is_urlencoded (transport : Request -> FetchOutcome)
    (key : string) (c : UrlscanClient) (term : string) (options : option Obj) :
  constructor (Some key) = Normal c ->
  term <> "" ->
  fetch_calls (snd (search transport term options (initial c))) =
    [{| req_url :=
          "https://urlscan.io/api/v1/search?" ++
          join "&" (("q=" ++ URLSearchParams.encode term) ::
                    map (fun kv => URLSearchParams.encode (fst kv) ++ "=" ++
                                   URLSearchParams.encode (ToString (snd kv)))
                        (filter (fun kv => is_defined (snd kv)) (entries options)));
        req_method := "GET";
        req_headers := [("API-Key", key)];
        req_body := None |}] /\
  (all_unreserved term = true -> URLSearchParams.encode term = term).
Proof.
  intros Hc Hterm. destruct (constructor_Some _ _ Hc) as [_ Ec].
  split; [| apply encode_unreserved].
  assert (Hacc : accepted (OpSearch term options) = true).
  { simpl. destruct (String.eqb_spec term ""); [contradiction | reflexivity]. }
  pose proof (call_run transport (OpSearch term options) (initial c) Hacc) as Hrun.
  cbv zeta in Hrun. cbn [call] in Hrun. cbn [this initial] in Hrun.
  rewrite Hrun. clear Hrun.
  rewrite <- toString_query_pairs.
  replace (fetch_calls _) with [request_of c (OpSearch term options)].
  - rewrite Ec. reflexivity.
  - destruct (transport _) as [r | name message].
    + destruct (ok r); [destruct (json r) |];
        rewrite ?swallow_Error, ?swallow_http_error; reflexivity.
    + rewrite swallow_Error. reflexivity.
Qed.

Lemma search_query_is_urlencoded_witness :
  fetch_calls (snd (search (responding (error_response 403)) "domain:urlscan.io"
                      (Some [("size", JNum 10); ("search_after", JUndefined)])
                      (initial test_client))) =
    [{| req_url := "https://urlscan.io/api/v1/search?q=domain%3Aurlscan.io&size=10";
        req_method := "GET";
        req_headers := [("API-Key", "test-api-key")];
        req_body := None |}] /\
  URLSearchParams.encode "example" = "example".
Proof.
  split.
  - refine (proj1 (search_query_is_urlencoded (responding (error_response 403))
                     "test-api-key" test_client "domain:urlscan.io"
                     (Some [("size", JNum 10); ("search_after", JUndefined)])
                     eq_refl _)).
    discriminate.
  - refine (proj2 (search_query_is_urlencoded (responding (error_response 403))
                     "test-api-key" test_client "example" None eq_refl _) eq_refl).
    discriminate.
Defined.

(** C8.  Whatever the operation and its input, every request that the call
    hands to fetch carries the header API-Key with the key given to the
    constructor, and the call leaves the client's [apiKey] and [baseURL] as
    the constructor set them. *)
Theorem api_key_header_invariant (transport : Request -> FetchOutcome)
    (key : string) (c : UrlscanClient) (op : Operation) (w : World) :
  constructor (Some key) = Normal c ->
  this w = c ->
  this (snd (call transport op w)) = c /\
  apiKey c = key /\
  baseURL c = "https://urlscan.io/api/v1/" /\
  exists issued : list Request,
    fetch_calls (snd (call transport op w)) = (fetch_calls w ++ issued)%list /\
    Forall (fun req => header "API-Key" (req_headers req) = Some key) issued.
Proof.
  intros Hc Hw. destruct (constructor_Some _ _ Hc) as [_ Ec].
  destruct (accepted op) eqn:Hacc.
  - rewrite (call_run transport op w Hacc). cbv zeta.
    assert (Hhdr : header "API-Key" (req_headers (request_of (this w) op)) = Some key).
    { rewrite Hw, Ec. destruct op; reflexivity. }
    repeat split; try (rewrite Ec; reflexivity).
    + rewrite <- Hw.
      destruct (transport _) as [r | name message].
      * destruct (ok r); [destruct (json r) |];
          rewrite ?swallow_Error, ?swallow_http_error; reflexivity.
      * rewrite swallow_Error. reflexivity.
    + exists [request_of (this w) op]. split.
      * destruct (transport _) as [r | name message].
        -- destruct (ok r); [destruct (json r) |];
             rewrite ?swallow_Error, ?swallow_http_error; reflexivity.
        -- rewrite swallow_Error. reflexivity.
      * constructor; [exact Hhdr | constructor].
  - rewrite (call_refused transport op w Hacc). simpl.
    repeat split; try (rewrite Ec; reflexivity); try assumption.
    exists []. split; [now rewrite app_nil_r | constructor].
Qed.

Lemma api_key_header_invariant_witness :
  this (snd (call (responding (ok_response (JObj [("results", JArr [])])))
               (OpSearch "example" None) (initial test_client))) = test_client /\
  apiKey test_client = "test-api-key" /\
  baseURL test_client = "https://urlscan.io/api/v1/" /\
  exists issued : list Request,
    fetch_calls (snd (call (responding (ok_response (JObj [("results", JArr [])])))
                        (OpSearch "example" None) (initial test_client))) =
      (fetch_calls (initial test_client) ++ issued)%list /\
    Forall (fun req => header "API-Key" (req_headers req) = Some "test-api-key") issued.
Proof.
  exact (api_key_header_invariant (responding (ok_response (JObj [("results", JArr [])])))
           "test-api-key" test_client (OpSearch "example" None) (initial test_client)
           eq_refl eq_refl).
Defined.



(** C10.  [handleError] logs the raw error value whenever [error.message]
    is falsy, not only when it is absent: for an error whose message is the
    empty string the line is "Error:" followed by the error itself. *)
Theorem handleError_falsy_message (error message : JsVal) (w : World) :
  get_message error = Normal message ->
  truthy message = false ->
  handleError error w = (Normal tt, record_console_error [JStr "Error:"; error] w).
Proof.
  intros Hm Hf. unfold handleError, bind, lift, console_error_call.
  rewrite Hm, Hf. reflexivity.
Qed.

Lemma handleError_falsy_message_witness :
  handleError (JError "Error" "") (initial test_client) =
    (Normal tt,
     {| this := test_client;
        fetch_calls := [];
        console_error := [[JStr "Error:"; JError "Error" ""]] |}).
Proof.
  apply (handleError_falsy_message (JError "Error" "") (JStr "") (initial test_client));
    reflexivity.
Defined.

(** ** Further properties of the client *)

(** *** Helper facts *)

Lemma call_accepted_world (transport : Request -> FetchOutcome) (op : Operation) (w : World) :
  accepted op = true ->
  exists (v : JsVal) (log : list (list JsVal)),
    call transport op w =
      (Normal v,
       {| this := this w;
          fetch_calls := (fetch_calls w ++ [request_of (this w) op])%list;
          console_error := (console_error w ++ log)%list |}) /\
    call transport op (initial (this w)) =
      (Normal v,
       {| this := this w;
          fetch_calls := [request_of (this w) op];
          console_error := log |}) /\
    (log = [] \/ exists arg, log = [[JStr "Error:"; arg]]).
Proof.
  intros Hacc.
  rewrite (call_run transport op w Hacc), (call_run transport op (initial (this w)) Hacc).
  cbv zeta. cbn [this initial].
  destruct (transport _) as [r | name message].
  - destruct (ok r); [destruct (json r) as [v | name message] |];
      rewrite ?swallow_Error, ?swallow_http_error.
    + exists v, []. unfold record_fetch. cbn. rewrite app_nil_r. auto.
    + eexists; eexists; repeat split; try reflexivity. right. eexists; reflexivity.
    + eexists; eexists; repeat split; try reflexivity. right. eexists; reflexivity.
  - rewrite ?swallow_Error.
    eexists; eexists; repeat split; try reflexivity. right. eexists; reflexivity.
Qed.

(** A call adds to the world what it does from an empty one: it reads
    nothing of the calls made before. *)
Lemma call_frame (transport : Request -> FetchOutcome) (op : Operation) (w : World) :
  call transport op w =
  (fst (call transport op (initial (this w))),
   extend w (snd (call transport op (initial (this w))))).
Proof.
  destruct (accepted op) eqn:Hacc.
  - destruct (call_accepted_world transport op w Hacc) as (v & log & H1 & H2 & _).
    rewrite H1, H2. reflexivity.
  - rewrite !(call_refused transport op _ Hacc). unfold extend. cbn.
    rewrite !app_nil_r. now destruct w.
Qed.

(** *** The properties *)

(** X1.  For each of the three operations, a response with [ok = true]
    whose body parses to [v] makes the call return [v] itself, whatever the
    status code of the response; nothing is written to [console.error] and
    fetch has been called once. *)
Theorem ok_response_body_is_returned (transport : Request -> FetchOutcome)
    (op : Operation) (w : World) (r : Response) (v : JsVal) :
  accepted op = true ->
  transport (request_of (this w) op) = Responds r ->
  ok r = true ->
  json r = JsonParsed v ->
  call transport op w = (Normal v, record_fetch (request_of (this w) op) w).
Proof.
  intros Hacc Ht Hok Hj. rewrite (call_run transport op w Hacc). cbv zeta.
  now rewrite Ht, Hok, Hj.
Qed.

Lemma ok_response_body_is_returned_witness :
  call (responding {| ok := true; status := 500;
                      json := JsonParsed (JObj [("results", JArr [])]) |})
       (OpSearch "example" None) (initial test_client) =
    (Normal (JObj [("results", JArr [])]),
     {| this := test_client;
        fetch_calls := [{| req_url := "https://urlscan.io/api/v1/search?q=example";
                           req_method := "GET";
                           req_headers := [("API-Key", "test-api-key")];
                           req_body := None |}];
        console_error := [] |}).
Proof.
  apply (ok_response_body_is_returned
           (responding {| ok := true; status := 500;
                          json := JsonParsed (JObj [("results", JArr [])]) |})
           (OpSearch "example" None) (initial test_client)
           {| ok := true; status := 500; json := JsonParsed (JObj [("results", JArr [])]) |});
    reflexivity.
Defined.

(** X2.  The promise of a call is rejected in one case only: [search] with
    the empty term.  [scan], [getScan] and [search] with a non-empty term are
    fulfilled on every transport outcome. *)
Theorem call_rejects_only_empty_search (transport : Request -> FetchOutcome)
    (op : Operation) (w : World) :
  (exists e, fst (call transport op w) = Throw e) <->
  (exists options, op = OpSearch "" options).
Proof.
  split.
  - intros [e He]. destruct (accepted op) eqn:Hacc.
    + destruct (call_accepted_world transport op w Hacc) as (v & log & H1 & _).
      rewrite H1 in He. discriminate.
    + destruct op as [url options | id | term options]; try discriminate.
      simpl in Hacc. exists options.
      destruct (String.eqb_spec term ""); [now subst | discriminate].
  - intros [options ->]. eexists. reflexivity.
Qed.

Lemma call_rejects_only_empty_search_witness :
  exists options, OpSearch "" (Some [("size", JNum 10)]) = OpSearch "" options.
Proof.
  apply (proj1 (call_rejects_only_empty_search (failing "TypeError" "fetch failed")
                  (OpSearch "" (Some [("size", JNum 10)])) (initial test_client))).
  eexists. reflexivity.
Defined.

(** X3.  When fetch rejects, or the body of an ok response does not parse,
    with an Error whose message is not empty, the call writes the line
    "Error:" followed by that message alone (the name of the error is not
    logged) and returns [undefined]. *)
Theorem transport_error_message_is_logged (transport : Request -> FetchOutcome)
    (op : Operation) (w : World) (name message : string) :
  accepted op = true ->
  message <> "" ->
  transport (request_of (this w) op) = NetworkFailure name message \/
  (exists r, transport (request_of (this w) op) = Responds r /\
             ok r = true /\ json r = JsonFails name message) ->
  call transport op w =
    (Normal JUndefined,
     record_console_error [JStr "Error:"; JStr message]
       (record_fetch (request_of (this w) op) w)).
Proof.
  intros Hacc Hm Ht. rewrite (call_run transport op w Hacc). cbv zeta.
  assert (Hs : forall w', swallow (JError name message) w' =
                 (Normal JUndefined, record_console_error [JStr "Error:"; JStr message] w')).
  { intros w'. rewrite swallow_Error.
    destruct (String.eqb_spec message ""); [contradiction | reflexivity]. }
  destruct Ht as [Ht | (r & Ht & Hok & Hj)].
  - rewrite Ht. apply Hs.
  - rewrite Ht, Hok, Hj. apply Hs.
Qed.

Lemma transport_error_message_is_logged_witness :
  call (failing "TypeError" "fetch failed") (OpGetScan "scan-id") (initial test_client) =
    (Normal JUndefined,
     {| this := test_client;
        fetch_calls := [request_of test_client (OpGetScan "scan-id")];
        console_error := [[JStr "Error:"; JStr "fetch failed"]] |}).
Proof.
  apply (transport_error_message_is_logged (failing "TypeError" "fetch failed")
           (OpGetScan "scan-id") (initial test_client) "TypeError" "fetch failed").
  - reflexivity.
  - discriminate.
  - left. reflexivity.
Defined.

(** X4.  [handleError] completes exactly when the error is neither
    [undefined] nor [null]: it then calls [console.error] once, with the tag
    "Error:" and one more argument, and touches nothing else.  On
    [undefined] and [null] reading [error.message] throws, and nothing is
    logged. *)
Theorem handleError_completes_unless_nullish (error : JsVal) (w : World) :
  (error = JUndefined \/ error = JNull ->
   exists e, handleError error w = (Throw e, w)) /\
  (error <> JUndefined -> error <> JNull ->
   exists arg, handleError error w =
                 (Normal tt, record_console_error [JStr "Error:"; arg] w)).
Proof.
  split.
  - intros [-> | ->]; eexists; reflexivity.
  - intros H1 H2. unfold handleError, bind, lift, console_error_call.
    destruct error; try contradiction; cbn; eexists; reflexivity.
Qed.

Lemma handleError_completes_unless_nullish_witness :
  (exists e, handleError JNull (initial test_client) = (Throw e, initial test_client)) /\
  (exists arg, handleError (JStr "boom") (initial test_client) =
                 (Normal tt,
                  record_console_error [JStr "Error:"; arg] (initial test_client))).
Proof.
  split.
  - apply (proj1 (handleError_completes_unless_nullish JNull (initial test_client))).
    right. reflexivity.
  - apply (proj2 (handleError_completes_unless_nullish (JStr "boom") (initial test_client)));
      discriminate.
Defined.

(** X5.  Calls do not influence each other: after an accepted call, a second
    call returns what it returns on its own, and the world holds the fetch
    calls and the log lines of the first followed by those of the second.
    Nothing is cached and nothing is retried. *)
Theorem consecutive_calls_are_independent (transport : Request -> FetchOutcome)
    (op1 op2 : Operation) (w : World) :
  accepted op1 = true ->
  (call transport op1 ;;; call transport op2) w =
    (fst (call transport op2 (initial (this w))),
     extend (extend w (snd (call transport op1 (initial (this w)))))
            (snd (call transport op2 (initial (this w))))).
Proof.
  intros Hacc. unfold bind.
  destruct (call_accepted_world transport op1 w Hacc) as (v & log & H1 & H2 & _).
  rewrite H1. rewrite call_frame. cbn [this]. rewrite H2. reflexivity.
Qed.

Lemma consecutive_calls_are_independent_witness :
  (call (responding (error_response 404)) (OpGetScan "scan-id") ;;;
   call (responding (error_response 404)) (OpGetScan "scan-id")) (initial test_client) =
    (Normal JUndefined,
     {| this := test_client;
        fetch_calls := [request_of test_client (OpGetScan "scan-id");
                        request_of test_client (OpGetScan "scan-id")];
        console_error := [[JStr "Error:"; JStr "HTTP error! status: 404"];
                          [JStr "Error:"; JStr "HTTP error! status: 404"]] |}).
Proof.
  exact (consecutive_calls_are_independent (responding (error_response 404))
           (OpGetScan "scan-id") (OpGetScan "scan-id") (initial test_client) eq_refl).
Defined.

(** *** Strings *)






Lemma count_char_app (c : ascii) (a b : string) :
  count_char c (a ++ b) = count_char c a + count_char c b.
Proof.
  induction a as [| x a IH]; simpl; [reflexivity |].
  rewrite IH. now rewrite Nat.add_assoc.
Qed.

(** *** The form-urlencoded text *)



Lemma count_amp_encode (s : string) : count_char "&" (URLSearchParams.encode s) = 0.
Proof.
  induction s as [| a r IH]; simpl; [reflexivity |].
  rewrite count_char_app, IH, Nat.add_0_r.
  destruct a as [[] [] [] [] [] [] [] []]; reflexivity.
Qed.

Lemma count_eq_encode (s : string) : count_char "=" (URLSearchParams.encode s) = 0.
Proof.
  induction s as [| a r IH]; simpl; [reflexivity |].
  rewrite count_char_app, IH, Nat.add_0_r.
  destruct a as [[] [] [] [] [] [] [] []]; reflexivity.
Qed.

Lemma count_amp_join (l : list string) :
  Forall (fun x => count_char "&" x = 0) l ->
  count_char "&" (join "&" l) = pred (length l).
Proof.
  induction 1 as [| x l Hx Hl IH]; [reflexivity |].
  destruct l as [| y l']; [simpl; exact Hx |].
  change (join "&" (x :: y :: l')) with (x ++ "&" ++ join "&" (y :: l')).
  rewrite !count_char_app, Hx, IH. reflexivity.
Qed.

Lemma count_eq_join (l : list string) :
  Forall (fun x => count_char "=" x = 1) l ->
  count_char "=" (join "&" l) = length l.
Proof.
  induction 1 as [| x l Hx Hl IH]; [reflexivity |].
  destruct l as [| y l']; [simpl; exact Hx |].
  change (join "&" (x :: y :: l')) with (x ++ "&" ++ join "&" (y :: l')).
  rewrite !count_char_app, Hx, IH. reflexivity.
Qed.



(** *** Requests *)

Lemma issued_request (transport : Request -> FetchOutcome) (op : Operation)
    (c : UrlscanClient) :
  accepted op = true ->
  fetch_calls (snd (call transport op (initial c))) = [request_of c op].
Proof.
  intros Hacc.
  destruct (call_accepted_world transport op (initial c) Hacc) as (v & log & H1 & _).
  rewrite H1. reflexivity.
Qed.

Lemma term_accepted (term : string) (options : option Obj) :
  term <> "" -> accepted (OpSearch term options) = true.
Proof.
  intros H. simpl. destruct (String.eqb_spec term ""); [contradiction | reflexivity].
Qed.




(** X7.  The query of [search] has exactly one [=] per pair and one [&]
    between pairs, whatever characters the term and the option names and
    values hold: with [n] options of a value other than [undefined] it has
    [n] ampersands and [n + 1] equals signs.  A term or a value cannot add a
    parameter or cut one short. *)
Theorem search_query_separators (transport : Request -> FetchOutcome)
    (c : UrlscanClient) (term : string) (options : option Obj) :
  term <> "" ->
  exists q : string,
    fetch_calls (snd (search transport term options (initial c))) =
      [{| req_url := baseURL c ++ "search?" ++ q;
          req_method := "GET";
          req_headers := [("API-Key", apiKey c)];
          req_body := None |}] /\
    count_char "&" q = length (filter (fun kv => is_defined (snd kv)) (entries options)) /\
    count_char "=" q = S (length (filter (fun kv => is_defined (snd kv)) (entries options))).
Proof.
  intros Hterm. exists (URLSearchParams.toString (query_pairs term options)).
  split.
  - change (search transport term options) with (call transport (OpSearch term options)).
    rewrite issued_request by (now apply term_accepted). reflexivity.
  - unfold URLSearchParams.toString. split.
    + rewrite count_amp_join.
      * rewrite length_map. unfold query_pairs. simpl. now rewrite length_map.
      * apply Forall_map, Forall_forall. intros [k v] _. simpl.
        rewrite count_char_app. cbn. now rewrite !count_amp_encode.
    + rewrite count_eq_join.
      * rewrite length_map. unfold query_pairs. simpl. now rewrite length_map.
      * apply Forall_map, Forall_forall. intros [k v] _. simpl.
        rewrite count_char_app. cbn. now rewrite !count_eq_encode.
Qed.

Lemma search_query_separators_witness :
  exists q : string,
    fetch_calls (snd (search (responding (ok_response JNull)) "a&b=c"
                        (Some [("size", JNum 10); ("search_after", JUndefined)])
                        (initial test_client))) =
      [{| req_url := "https://urlscan.io/api/v1/search?" ++ q;
          req_method := "GET";
          req_headers := [("API-Key", "test-api-key")];
          req_body := None |}] /\
    count_char "&" q = 1 /\
    count_char "=" q = 2.
Proof.
  refine (search_query_separators (responding (ok_response JNull)) test_client "a&b=c"
            (Some [("size", JNum 10); ("search_after", JUndefined)]) _).
  discriminate.
Defined.





(** X10.  The API key occurs in the headers only: the address, the method
    and the body of the request of a call are the same for any two keys (and
    on any two transports). *)
Theorem api_key_stays_out_of_url_and_body (transport1 transport2 : Request -> FetchOutcome)
    (key1 key2 : string) (c1 c2 : UrlscanClient) (op : Operation) :
  constructor (Some key1) = Normal c1 ->
  constructor (Some key2) = Normal c2 ->
  map (fun req => (req_url req, req_method req, req_body req))
      (fetch_calls (snd (call transport1 op (initial c1)))) =
  map (fun req => (req_url req, req_method req, req_body req))
      (fetch_calls (snd (call transport2 op (initial c2)))).
Proof.
  intros H1 H2.
  destruct (constructor_Some _ _ H1) as [_ E1], (constructor_Some _ _ H2) as [_ E2].
  destruct (accepted op) eqn:Hacc.
  - rewrite !issued_request by exact Hacc. rewrite E1, E2.
    destruct op; reflexivity.
  - now rewrite !(call_refused _ op _ Hacc).
Qed.

Lemma api_key_stays_out_of_url_and_body_witness :
  map (fun req => (req_url req, req_method req, req_body req))
      (fetch_calls (snd (call (responding (ok_response JNull))
                           (OpScan "https://example.com" None) (initial test_client)))) =
  map (fun req => (req_url req, req_method req, req_body req))
      (fetch_calls (snd (call (failing "TypeError" "fetch failed")
                           (OpScan "https://example.com" None)
                           (initial {| apiKey := "another-key";
                                       baseURL := "https://urlscan.io/api/v1/" |})))).
Proof.
  exact (api_key_stays_out_of_url_and_body (responding (ok_response JNull))
           (failing "TypeError" "fetch failed") "test-api-key" "another-key"
           test_client _ (OpScan "https://example.com" None) eq_refl eq_refl).
Defined.

(** X11.  [search] depends on its options only through the properties whose
    value is not [undefined]: absent options, an empty options object and
    options that are all [undefined] give the same call, and so do any two
    options objects with the same defined properties. *)
Theorem search_ignores_undefined_options (transport : Request -> FetchOutcome)
    (term : string) (options options' : option Obj) (w : World) :
  filter (fun kv => is_defined (snd kv)) (entries options) =
  filter (fun kv => is_defined (snd kv)) (entries options') ->
  search transport term options w = search transport term options' w.
Proof.
  intros H.
  change (search transport term options) with (call transport (OpSearch term options)).
  change (search transport term options') with (call transport (OpSearch term options')).
  destruct (accepted (OpSearch term options)) eqn:Hacc.
  - assert (Hacc' : accepted (OpSearch term options') = true) by exact Hacc.
    rewrite (call_run _ _ w Hacc), (call_run _ _ w Hacc').
    cbn [request_of]. unfold query_pairs. now rewrite H.
  - assert (Hacc' : accepted (OpSearch term options') = false) by exact Hacc.
    now rewrite (call_refused _ _ w Hacc), (call_refused _ _ w Hacc').
Qed.

Lemma search_ignores_undefined_options_witness :
  search (responding (error_response 403)) "example"
         (Some [("size", JUndefined); ("search_after", JUndefined)])
         (initial test_client) =
  search (responding (error_response 403)) "example" None (initial test_client).
Proof.
  exact (search_ignores_undefined_options (responding (error_response 403)) "example"
           (Some [("size", JUndefined); ("search_after", JUndefined)]) None
           (initial test_client) eq_refl).
Defined.


